(** * The sidebar fragment of module [serenity::model::prelude::guild::automod]

    [src/next/serenity/model/prelude/guild/automod/sidebar-items.js] is a
    single JavaScript statement: it assigns an object literal to the property
    [SIDEBAR_ITEMS] of the global [window].  The object maps a kind string to
    an array, and every element of such an array is a two-element array of
    string literals (item name, one-line summary).

    The statement is embedded as a value of a small JavaScript syntax tree.
    An object literal is an association list: the order of its properties is
    observable (it is the order of [Object.keys]) and several claims speak
    about it. *)

From stdpp Require Import base option list strings sorting.
From Stdlib Require Import Ascii String.

#[local] Set Warnings "-register-all".
Local Open Scope string_scope.
Local Open Scope list_scope.

(** ** JavaScript values and statements *)

Module Js.

Inductive value : Type :=
| Str (s : string)
| Arr (elems : list value)
| Obj (props : list (string * value)).

(** [target.property = rhs;] *)
Record statement : Type := Assign {
  target : string;
  property : string;
  rhs : value
}.

(** Property read [o[k]].  A later property of an object literal overrides
    an earlier one of the same name. *)
Fixpoint get (k : string) (props : list (string * value)) : option value :=
  match props with
  | [] => None
  | (k', v) :: rest =>
      match get k rest with
      | Some v' => Some v'
      | None => if String.eqb k k' then Some v else None
      end
  end.

(** [Object.keys(o)] for an object literal without repeated property. *)
Definition keys (props : list (string * value)) : list string := props.*1.

(** Concrete syntax.  The string literals of the fragment hold neither a
    quote nor a backslash, so a literal is its content between quotes. *)
Definition dquote : string := String (ascii_of_nat 34) EmptyString.

Definition literal (s : string) : string := dquote +:+ s +:+ dquote.

Fixpoint print (v : value) : string :=
  match v with
  | Str s => literal s
  | Arr elems => "[" +:+ String.concat "," (map print elems) +:+ "]"
  | Obj props =>
      "{" +:+ String.concat ","
                (map (fun kv => match kv with
                                | (k, x) => literal k +:+ ":" +:+ print x
                                end) props) +:+ "}"
  end.

Definition print_statement (st : statement) : string :=
  target st +:+ "." +:+ property st +:+ " = " +:+ print (rhs st) +:+ ";".

End Js.

(** ** The fragment *)

Definition SIDEBAR_ITEMS : Js.value :=
  Js.Obj
    [ ("enum",
       Js.Arr
         [ Js.Arr [Js.Str "Action";
                   Js.Str "An action which will execute whenever a rule is triggered."];
           Js.Arr [Js.Str "ActionType";
                   Js.Str "Type of [`Action`]."];
           Js.Arr [Js.Str "EventType";
                   Js.Str "Indicates in what event context a rule should be checked."];
           Js.Arr [Js.Str "KeywordPresetType";
                   Js.Str "Internally pre-defined wordsets which will be searched for in content."];
           Js.Arr [Js.Str "Trigger";
                   Js.Str "Characterizes the type of content which can trigger the rule."];
           Js.Arr [Js.Str "TriggerType";
                   Js.Str "Type of [`Trigger`]."] ]);
      ("struct",
       Js.Arr
         [ Js.Arr [Js.Str "ActionExecution";
                   Js.Str "Gateway event payload sent when a rule is triggered and an action is executed (e.g. message is blocked)."];
           Js.Arr [Js.Str "Rule";
                   Js.Str "Configured auto moderation rule."];
           Js.Arr [Js.Str "TriggerMetadata";
                   Js.Str "Individual change for trigger metadata within an audit log entry."] ]) ].

Definition sidebar_items_js : Js.statement :=
  Js.Assign "window" "SIDEBAR_ITEMS" SIDEBAR_ITEMS.

(** The module the fragment belongs to, read off the path of the file. *)
Definition modulePath : list string :=
  ["serenity"; "model"; "prelude"; "guild"; "automod"].

(** The text of the file.  It is written here with an apostrophe wherever the
    file has a double quote (the file holds no apostrophe); [requote] puts the
    double quotes back. *)
Definition requote_ascii (c : ascii) : ascii :=
  if Ascii.eqb c "'"%char then ascii_of_nat 34 else c.

Fixpoint requote (s : string) : string :=
  match s with
  | EmptyString => EmptyString
  | String c s' => String (requote_ascii c) (requote s')
  end.

Definition sidebar_items_text : string :=
  requote
    ("window.SIDEBAR_ITEMS = {'enum':[['Action','An action which will execute whenever a rule is triggered.'],"
     +:+ "['ActionType','Type of [`Action`].'],"
     +:+ "['EventType','Indicates in what event context a rule should be checked.'],"
     +:+ "['KeywordPresetType','Internally pre-defined wordsets which will be searched for in content.'],"
     +:+ "['Trigger','Characterizes the type of content which can trigger the rule.'],"
     +:+ "['TriggerType','Type of [`Trigger`].']],"
     +:+ "'struct':[['ActionExecution','Gateway event payload sent when a rule is triggered and an action is executed (e.g. message is blocked).'],"
     +:+ "['Rule','Configured auto moderation rule.'],"
     +:+ "['TriggerMetadata','Individual change for trigger metadata within an audit log entry.']]};").

(** ** The payload carried by the fragment *)

(** A bucket is an ordered sequence of (name, summary) pairs; a payload is an
    ordered sequence of (kind, bucket) pairs, keyed by the kind string as the
    object literal is. *)
Definition bucket : Type := list (string * string).
Definition payload : Type := list (string * bucket).

Definition as_pair (v : Js.value) : option (string * string) :=
  match v with
  | Js.Arr [Js.Str n; Js.Str s] => Some (n, s)
  | _ => None
  end.

Definition as_bucket (v : Js.value) : option bucket :=
  match v with
  | Js.Arr elems => mapM as_pair elems
  | _ => None
  end.

Definition as_entry (kv : string * Js.value) : option (string * bucket) :=
  b ← as_bucket kv.2; Some (kv.1, b).

Definition as_payload (v : Js.value) : option payload :=
  match v with
  | Js.Obj props => mapM as_entry props
  | _ => None
  end.

Definition of_pair (ns : string * string) : Js.value :=
  Js.Arr [Js.Str ns.1; Js.Str ns.2].

Definition of_bucket (b : bucket) : Js.value := Js.Arr (of_pair <$> b).

Definition of_payload (p : payload) : Js.value :=
  Js.Obj ((fun kb => (kb.1, of_bucket kb.2)) <$> p).

(** The shape, stated on the syntax tree. *)
Definition is_pair_of_strings (v : Js.value) : Prop :=
  ∃ n s, v = Js.Arr [Js.Str n; Js.Str s].

Definition is_bucket (v : Js.value) : Prop :=
  ∃ elems, v = Js.Arr elems ∧ Forall is_pair_of_strings elems.

Definition is_wire_shape (v : Js.value) : Prop :=
  ∃ props, v = Js.Obj props ∧ NoDup (Js.keys props)
           ∧ Forall (fun kv => is_bucket kv.2) props.

(** The payload of the fragment, obtained by decoding its right-hand side. *)
Definition automod_payload : payload :=
  Eval vm_compute in default [] (as_payload (Js.rhs sidebar_items_js)).

(** Bucket of a kind key: the property read on the decoded payload. *)
Fixpoint bucket_of (k : string) (p : payload) : option bucket :=
  match p with
  | [] => None
  | (k', b) :: rest =>
      match bucket_of k rest with
      | Some b' => Some b'
      | None => if String.eqb k k' then Some b else None
      end
  end.

Definition names (b : bucket) : list string := b.*1.
Definition summaries (b : bucket) : list string := b.*2.
Definition kinds (p : payload) : list string := p.*1.

Definition all_names (p : payload) : list string := p ≫= (fun kb => names kb.2).
Definition all_summaries (p : payload) : list string :=
  p ≫= (fun kb => summaries kb.2).

Definition enum_bucket : bucket :=
  Eval vm_compute in default [] (bucket_of "enum" automod_payload).
Definition struct_bucket : bucket :=
  Eval vm_compute in default [] (bucket_of "struct" automod_payload).

(** ** The order of names *)

(** Lower-casing of the ASCII letters, the only letters of the fragment. *)
Definition to_lower_ascii (c : ascii) : ascii :=
  let n := nat_of_ascii c in
  if (65 <=? n)%nat && (n <=? 90)%nat then ascii_of_nat (n + 32) else c.

Fixpoint to_lower (s : string) : string :=
  match s with
  | EmptyString => EmptyString
  | String c s' => String (to_lower_ascii c) (to_lower s')
  end.

(** Case-insensitive lexical order, ties between names that are equal up to
    case broken by the case-sensitive lexical order [String.le]. *)
Definition name_le (a b : string) : Prop :=
  (to_lower a ≠ to_lower b ∧ String.le (to_lower a) (to_lower b))
  ∨ (to_lower a = to_lower b ∧ String.le a b).

#[global] Instance name_le_dec : RelDecision name_le.
Proof. intros a b. unfold name_le. apply _. Defined.

(** Case-sensitive strict lexical order, the order of [<] on JavaScript
    strings of ASCII characters. *)
Definition string_lt (a b : string) : Prop := String.compare a b = Lt.

#[global] Instance string_lt_dec : RelDecision string_lt.
Proof. intros a b. unfold string_lt. apply _. Defined.

(** [a] comes before [b] in [l]. *)
Definition precedes (a b : string) (l : list string) : Prop :=
  ∃ i j, (i < j)%nat ∧ l !! i = Some a ∧ l !! j = Some b.

(** ** Lines *)

Definition LF : ascii := ascii_of_nat 10.
Definition CR : ascii := ascii_of_nat 13.

Definition chars (s : string) : list ascii := list_ascii_of_string s.

Definition single_line (s : string) : Prop := (LF ∉ chars s) ∧ (CR ∉ chars s).

#[global] Instance single_line_dec s : Decision (single_line s).
Proof. unfold single_line. apply _. Defined.

(** Paragraphs are separated by an empty line. *)
Definition paragraph_break : string := String LF (String LF EmptyString).

Definition multi_paragraph (s : string) : Prop :=
  ∃ before after, s = before +:+ paragraph_break +:+ after.

(** ** Kinds *)

(** Modelled from the spec: the declaration of the closed set of kinds is not
    part of the fragment, which only shows two kind strings.  The set is the
    one the data model lists (enum, struct, trait/interface, function, macro,
    type-alias, constant); the keys of [enum] and [struct] are the ones of the
    fragment, the others are the data model's words. *)
Inductive Kind : Type :=
| KEnum | KStruct | KTrait | KFunction | KMacro | KTypeAlias | KConstant.

#[global] Instance Kind_eq_dec : EqDecision Kind.
Proof. solve_decision. Defined.

(** Modelled from the spec: the declared kinds, in the order the data model
    lists them. *)
Definition declared_kinds : list Kind :=
  [KEnum; KStruct; KTrait; KFunction; KMacro; KTypeAlias; KConstant].

(** Modelled from the spec: the key of a kind in the serialized payload. *)
Definition kind_key (k : Kind) : string :=
  match k with
  | KEnum => "enum"
  | KStruct => "struct"
  | KTrait => "trait"
  | KFunction => "function"
  | KMacro => "macro"
  | KTypeAlias => "type-alias"
  | KConstant => "constant"
  end.

(** A payload has a bucket, possibly empty, for every declared kind. *)
Definition every_declared_kind_present (p : payload) : Prop :=
  ∀ k, k ∈ declared_kinds → is_Some (bucket_of (kind_key k) p).

(** ** The search index *)

Module Search.

(** Modelled from the spec: the search index and its ranking are not part
    of the fragment.  An entry is the item record of the data model; the
    index over one module payload lists the items of its buckets. *)
Record ItemRecord : Type := {
  name : string;
  kind : string;
  summary : string;
  module_path : list string
}.

(** Modelled from the spec: the item records of a module payload, bucket
    after bucket. *)
Definition entries (mp : list string) (p : payload) : list ItemRecord :=
  p ≫= (fun kb =>
          (fun ns => {| name := ns.1; kind := kb.1; summary := ns.2;
                        module_path := mp |}) <$> kb.2).

(** Modelled from the spec: the name [n] starts with the query [q] when both
    are compared without case. *)
Definition starts_with_ci (q n : string) : bool :=
  String.prefix (to_lower q) (to_lower n).

(** Modelled from the spec: the priority of kinds in the ranking, struct
    and trait first, then function, constant, macro, and the others; a
    smaller number ranks first. *)
Definition kind_priority (k : string) : nat :=
  if bool_decide (k ∈ [kind_key KStruct; kind_key KTrait]) then 0
  else if bool_decide (k = kind_key KFunction) then 1
  else if bool_decide (k = kind_key KConstant) then 2
  else if bool_decide (k = kind_key KMacro) then 3
  else 4.

Section ranking.
Variable prio : string → nat.
Variable q : string.

(** Modelled from the spec: 0 for a name equal to the query up to case, 1
    otherwise. *)
Definition exact_rank (r : ItemRecord) : nat :=
  if String.eqb (to_lower (name r)) (to_lower q) then 0 else 1.

(** Modelled from the spec: exact case-insensitive match first, then the
    shorter name, then the kind of higher priority, then the lexical
    order of the names. *)
Definition rank_le (a b : ItemRecord) : Prop :=
  (exact_rank a < exact_rank b)%nat
  ∨ (exact_rank a = exact_rank b
     ∧ ((String.length (name a) < String.length (name b))%nat
        ∨ (String.length (name a) = String.length (name b)
           ∧ ((prio (kind a) < prio (kind b))%nat
              ∨ (prio (kind a) = prio (kind b)
                 ∧ String.le (name a) (name b)))))).

#[global] Instance rank_le_dec : RelDecision rank_le.
Proof. intros a b. unfold rank_le. apply _. Defined.

(** Modelled from the spec: the entries whose name starts with the query,
    compared without case, in ranking order; none for the empty query. *)
Definition lookupPrefix (idx : list ItemRecord) : list ItemRecord :=
  if decide (q = EmptyString) then []
  else merge_sort rank_le
         (filter (fun r => starts_with_ci q (name r) = true) idx).
End ranking.

End Search.

(** The index over the fragment. *)
Definition automod_index : list Search.ItemRecord :=
  Search.entries modulePath automod_payload.

(** ** Characters of the strings of the fragment *)

(** All the string literals of a value, property names included, in the
    order of the text. *)
Fixpoint strings (v : Js.value) : list string :=
  match v with
  | Js.Str s => [s]
  | Js.Arr elems => List.concat (map strings elems)
  | Js.Obj props =>
      List.concat (map (fun kv => match kv with
                                  | (k, x) => k :: strings x
                                  end) props)
  end.

Definition is_upper (c : ascii) : bool :=
  let n := nat_of_ascii c in (65 <=? n)%nat && (n <=? 90)%nat.

Definition is_lower (c : ascii) : bool :=
  let n := nat_of_ascii c in (97 <=? n)%nat && (n <=? 122)%nat.

Definition is_letter (c : ascii) : bool := is_upper c || is_lower c.

(** A printable ASCII character that a JavaScript string literal holds as
    itself: neither the double quote (34) nor the backslash (92). *)
Definition is_plain (c : ascii) : bool :=
  let n := nat_of_ascii c in
  (32 <=? n)%nat && (n <=? 126)%nat
  && negb (n =? 34)%nat && negb (n =? 92)%nat.

Definition plain (s : string) : Prop := forallb is_plain (chars s) = true.

(** ASCII letters only, the first one a capital. *)
Definition is_identifier (s : string) : bool :=
  match chars s with
  | [] => false
  | c :: cs => is_upper c && forallb is_letter cs
  end.

(** Lower-case ASCII letters only, at least one. *)
Definition is_lower_word (s : string) : bool :=
  match chars s with
  | [] => false
  | cs => forallb is_lower cs
  end.

(** A sentence: it begins with a capital letter and ends with a full stop. *)
Definition is_sentence (s : string) : bool :=
  match head (chars s), last (chars s) with
  | Some c, Some d => is_upper c && Ascii.eqb d "."%char
  | _, _ => false
  end.

(** The targets of the links of a summary.  A link is written with a
    bracket and a backquote on each side of its target; the scan keeps
    the characters between an opening bracket-backquote and the next
    backquote, and emits them when a closing bracket follows. *)
Inductive link_state : Type :=
| Outside
| AfterBracket
| Inside (acc : list ascii)
| Closing (acc : list ascii).

Fixpoint links_go (st : link_state) (l : list ascii) : list string :=
  match l with
  | [] => []
  | c :: l' =>
      match st with
      | Outside =>
          if Ascii.eqb c "["%char then links_go AfterBracket l'
          else links_go Outside l'
      | AfterBracket =>
          if Ascii.eqb c "`"%char then links_go (Inside []) l'
          else if Ascii.eqb c "["%char then links_go AfterBracket l'
          else links_go Outside l'
      | Inside acc =>
          if Ascii.eqb c "`"%char then links_go (Closing acc) l'
          else links_go (Inside (c :: acc)) l'
      | Closing acc =>
          if Ascii.eqb c "]"%char
          then string_of_list_ascii (rev acc) :: links_go Outside l'
          else if Ascii.eqb c "["%char then links_go AfterBracket l'
          else links_go Outside l'
      end
  end.

Definition link_targets (s : string) : list string := links_go Outside (chars s).

(** ** First checks *)

(** The syntax tree printed is the text of the file. *)
Lemma print_fragment :
  Js.print_statement sidebar_items_js = sidebar_items_text.
Proof. vm_compute. reflexivity. Qed.

Lemma decode_fragment : as_payload SIDEBAR_ITEMS = Some automod_payload.
Proof. reflexivity. Qed.

Lemma enum_bucket_eq : bucket_of "enum" automod_payload = Some enum_bucket.
Proof. reflexivity. Qed.

Lemma struct_bucket_eq : bucket_of "struct" automod_payload = Some struct_bucket.
Proof. reflexivity. Qed.

Example names_enum :
  names enum_bucket
  = ["Action"; "ActionType"; "EventType"; "KeywordPresetType"; "Trigger";
     "TriggerType"].
Proof. reflexivity. Qed.

Example names_struct :
  names struct_bucket = ["ActionExecution"; "Rule"; "TriggerMetadata"].
Proof. reflexivity. Qed.

Example to_lower_ex : to_lower "TriggerMetadata" = "triggermetadata".
Proof. reflexivity. Qed.

Example lookup_ex :
  Search.name <$> Search.lookupPrefix Search.kind_priority "act" automod_index
  = ["Action"; "ActionType"; "ActionExecution"].
Proof. vm_compute. reflexivity. Qed.

(** ** Decoding and encoding are inverse *)

Lemma as_pair_of_pair ns : as_pair (of_pair ns) = Some ns.
Proof. by destruct ns. Qed.

Lemma of_pair_as_pair v ns : as_pair v = Some ns → of_pair ns = v.
Proof.
  destruct v as [|[|[s1| |] [|[s2| |] [|]]]|]; simpl; intros H;
    by simplify_eq.
Qed.

Lemma as_bucket_of_bucket b : as_bucket (of_bucket b) = Some b.
Proof. apply mapM_fmap_Some, as_pair_of_pair. Qed.

Lemma of_bucket_as_bucket v b : as_bucket v = Some b → of_bucket b = v.
Proof.
  destruct v as [|elems|]; simpl; [done| |done].
  intros H. unfold of_bucket. f_equal.
  eapply mapM_fmap_Some_inv; [done|]. apply of_pair_as_pair.
Qed.

Lemma as_payload_of_payload p : as_payload (of_payload p) = Some p.
Proof.
  unfold of_payload; simpl. apply mapM_fmap_Some.
  intros [k b]. pose proof (as_bucket_of_bucket b) as Hb.
  unfold as_entry; simpl in *. by rewrite Hb.
Qed.

Lemma of_payload_as_payload v p : as_payload v = Some p → of_payload p = v.
Proof.
  destruct v as [| |props]; simpl; [done..|].
  intros H. unfold of_payload. f_equal.
  eapply mapM_fmap_Some_inv; [done|].
  intros [k x] [k' b]. unfold as_entry; simpl. intros Hkb.
  destruct (as_bucket x) as [b0|] eqn:Hb; simplify_eq/=.
  by rewrite (of_bucket_as_bucket _ _ Hb).
Qed.

Lemma is_pair_of_strings_iff v : is_pair_of_strings v ↔ is_Some (as_pair v).
Proof.
  split.
  - intros (n & s & ->). by eexists.
  - intros [[n s] H]. exists n, s. by rewrite <-(of_pair_as_pair _ _ H).
Qed.

Lemma is_bucket_iff v : is_bucket v ↔ is_Some (as_bucket v).
Proof.
  split.
  - intros (elems & -> & H). simpl. apply mapM_is_Some.
    eapply Forall_impl; [done|]. intros x. apply is_pair_of_strings_iff.
  - intros [b H]. destruct v as [|elems|]; simplify_eq/=.
    exists elems. split; [done|].
    assert (is_Some (mapM as_pair elems)) as Hs by by eexists.
    apply mapM_is_Some in Hs.
    eapply Forall_impl; [done|]. intros x. apply is_pair_of_strings_iff.
Qed.

Lemma kinds_as_payload props p :
  mapM as_entry props = Some p → kinds p = Js.keys props.
Proof.
  intros H%mapM_Some_1. unfold kinds, Js.keys.
  induction H as [|[k x] [k' b] ?? Hkb]; [done|].
  unfold as_entry in Hkb; simpl in *.
  destruct (as_bucket x); simplify_eq/=. by f_equal.
Qed.

(** A value has the wire shape exactly when it decodes to a payload whose
    kinds are pairwise distinct. *)
Lemma is_wire_shape_iff v :
  is_wire_shape v ↔ ∃ p, as_payload v = Some p ∧ NoDup (kinds p).
Proof.
  split.
  - intros (props & -> & Hnd & Hb). simpl.
    assert (is_Some (mapM as_entry props)) as [p Hp].
    { apply mapM_is_Some. eapply Forall_impl; [done|].
      intros [k x] [b Hx]%is_bucket_iff. unfold compose, as_entry.
      simpl in *. rewrite Hx. by eexists. }
    exists p. split; [done|]. by rewrite (kinds_as_payload _ _ Hp).
  - intros (p & Hp & Hnd). destruct v as [| |props]; simplify_eq/=.
    exists props. split; [done|].
    rewrite <-(kinds_as_payload _ _ Hp). split; [done|].
    assert (is_Some (mapM as_entry props)) as Hs by by eexists.
    apply mapM_is_Some in Hs. eapply Forall_impl; [done|].
    intros [k x] [kb Hx]. apply is_bucket_iff; simpl.
    unfold compose, as_entry in Hx; simpl in Hx.
    destruct (as_bucket x); [by eexists|done].
Qed.

(** ** Buckets of a payload *)

Lemma bucket_of_elem k b p : bucket_of k p = Some b → (k, b) ∈ p.
Proof.
  induction p as [|[k' b'] p IH]; simpl; [done|].
  destruct (bucket_of k p) as [b0|].
  - intros ?; simplify_eq. right. by apply IH.
  - destruct (String.eqb_spec k k') as [->|]; intros ?; simplify_eq. by left.
Qed.

Lemma elem_bucket_of k b p : NoDup (kinds p) → (k, b) ∈ p → bucket_of k p = Some b.
Proof.
  unfold kinds. induction p as [|[k' b'] p IH]; simpl.
  - by intros _ ?%elem_of_nil.
  - intros [Hk Hnd]%NoDup_cons [?|Hin]%elem_of_cons; simplify_eq.
    + destruct (bucket_of k' p) as [b0|] eqn:Hb0.
      * apply bucket_of_elem in Hb0. destruct Hk.
        apply list_elem_of_fmap. by exists (k', b0).
      * by rewrite String.eqb_refl.
    + by rewrite (IH Hnd Hin).
Qed.

(** The bucket of a kind is the property read on the object, decoded. *)
Lemma bucket_of_get k props p :
  mapM as_entry props = Some p → bucket_of k p = Js.get k props ≫= as_bucket.
Proof.
  intros H%mapM_Some_1.
  cut ((∀ v, Js.get k props = Some v →
             ∃ b, as_bucket v = Some b ∧ bucket_of k p = Some b)
       ∧ (Js.get k props = None → bucket_of k p = None)).
  { intros [Hsome Hnone]. destruct (Js.get k props) as [v|]; simpl.
    - destruct (Hsome v eq_refl) as (b & -> & ->). done.
    - by apply Hnone. }
  induction H as [|[k1 x] [k2 b] props' p' Hkb _ [IHsome IHnone]]; simpl.
  { split; [intros v ?|]; done. }
  unfold as_entry in Hkb; simpl in Hkb.
  destruct (as_bucket x) as [b0|] eqn:Hx; simplify_eq/=.
  destruct (Js.get k props') as [v'|].
  - destruct (IHsome v' eq_refl) as (b' & Hb' & ->).
    split; [|done]. intros v ?; simplify_eq. by exists b'.
  - rewrite (IHnone eq_refl). destruct (String.eqb k k2).
    + split; [|done]. intros v ?; simplify_eq. by exists b.
    + split; [intros v ?|]; done.
Qed.

Example sidebar_items_get :
  ∃ props,
    SIDEBAR_ITEMS = Js.Obj props
    ∧ Js.get "enum" props ≫= as_bucket = Some enum_bucket
    ∧ Js.get "struct" props ≫= as_bucket = Some struct_bucket
    ∧ Js.get "trait" props = None.
Proof. eexists. split_and!; reflexivity. Qed.

(** The buckets of the fragment are the [enum] and the [struct] bucket. *)
Lemma automod_buckets (P : bucket → Prop) :
  P enum_bucket → P struct_bucket →
  ∀ k b, bucket_of k automod_payload = Some b → P b.
Proof.
  intros He Hs k b H%bucket_of_elem.
  unfold automod_payload in H.
  repeat (apply elem_of_cons in H as [H|H]; [by simplify_eq|]).
  by apply elem_of_nil in H.
Qed.

(** ** The order of names is a total order *)

#[global] Instance name_le_po : PartialOrder name_le.
Proof.
  split; [split|].
  - intros a. by right.
  - intros a b c [[Hn1 H1]|[He1 H1]] [[Hn2 H2]|[He2 H2]].
    + left. split; [|by etrans]. intros Heq. rewrite Heq in H1.
      apply Hn2. by apply (anti_symm String.le).
    + left. by rewrite <-He2.
    + left. by rewrite He1.
    + right. split; [congruence|by etrans].
  - intros a b [[Hn1 H1]|[He1 H1]] [[Hn2 H2]|[He2 H2]]; try congruence.
    + destruct Hn1. by apply (anti_symm String.le).
    + by apply (anti_symm String.le).
Qed.

#[global] Instance name_le_total : Total name_le.
Proof.
  intros a b. unfold name_le.
  destruct (decide (to_lower a = to_lower b)) as [He|Hn].
  - destruct (total String.le a b); [left|right]; right; by split.
  - destruct (total String.le (to_lower a) (to_lower b)); [left|right]; left;
      split; congruence.
Qed.

(** A list sorted by the order of names without repetition is strictly
    sorted, and conversely a strictly sorted list has no repetition. *)
Lemma StronglySorted_strict_name_le l :
  StronglySorted name_le l → NoDup l → StronglySorted (strict name_le) l.
Proof.
  induction 1 as [|x l _ IH Hx]; intros Hnd; [constructor|].
  apply NoDup_cons in Hnd as [Hx' Hnd]. constructor; [by apply IH|].
  rewrite Forall_forall in Hx |- *. intros y Hy. split; [by apply Hx|].
  intros Hyx. assert (x = y) as ->; [|done].
  apply (anti_symm name_le); [by apply Hx|done].
Qed.

Lemma StronglySorted_name_le_NoDup l :
  StronglySorted (strict name_le) l → NoDup l.
Proof.
  induction 1 as [|x l _ IH Hx]; constructor; [|done].
  intros Hin. rewrite Forall_forall in Hx.
  destruct (Hx x Hin) as [_ []]. done.
Qed.

(** ** Lines and paragraphs *)

Lemma chars_app a b : chars (a +:+ b) = chars a ++ chars b.
Proof.
  unfold chars. induction a as [|c a IH]; [done|].
  change (String c a +:+ b) with (String c (a +:+ b)). simpl. by rewrite IH.
Qed.

Lemma single_line_not_multi_paragraph s : single_line s → ¬ multi_paragraph s.
Proof.
  intros [HLF _] (before & rest & ->). apply HLF.
  rewrite chars_app. apply elem_of_app. right. by left.
Qed.

(** ** The ranking is a total preorder, and what [lookupPrefix] returns *)

Section ranking_facts.
Variable prio : string → nat.
Variable q : string.

#[global] Instance rank_le_total : Total (Search.rank_le prio q).
Proof.
  intros a b. unfold Search.rank_le.
  generalize (Search.exact_rank q a) (Search.exact_rank q b)
    (String.length (Search.name a)) (String.length (Search.name b))
    (prio (Search.kind a)) (prio (Search.kind b)).
  intros e1 e2 l1 l2 p1 p2.
  destruct (total String.le (Search.name a) (Search.name b));
    destruct (Nat.lt_total e1 e2) as [?|[->|?]]; auto;
    destruct (Nat.lt_total l1 l2) as [?|[->|?]]; auto 6;
    destruct (Nat.lt_total p1 p2) as [?|[->|?]]; auto 10.
Qed.

#[global] Instance rank_le_trans : Transitive (Search.rank_le prio q).
Proof.
  intros a b c. unfold Search.rank_le. intros Hab Hbc.
  assert (String.le (Search.name a) (Search.name b) →
          String.le (Search.name b) (Search.name c) →
          String.le (Search.name a) (Search.name c)) by (intros; by etrans).
  revert Hab Hbc.
  generalize (Search.exact_rank q a) (Search.exact_rank q b)
    (Search.exact_rank q c)
    (String.length (Search.name a)) (String.length (Search.name b))
    (String.length (Search.name c))
    (prio (Search.kind a)) (prio (Search.kind b)) (prio (Search.kind c)).
  intros e1 e2 e3 l1 l2 l3 p1 p2 p3.
  intros [?|[-> [?|[-> [?|[-> ?]]]]]] [?|[<- [?|[<- [?|[<- ?]]]]]];
    first [ left; lia | right; split; [done|] ];
    first [ left; lia | right; split; [done|] ];
    first [ left; lia | right; split; [done|] ]; auto.
Qed.

Lemma lookupPrefix_empty idx : q = EmptyString → Search.lookupPrefix prio q idx = [].
Proof. intros ->. reflexivity. Qed.

Lemma lookupPrefix_elem idx r :
  r ∈ Search.lookupPrefix prio q idx →
  r ∈ idx ∧ Search.starts_with_ci q (Search.name r) = true ∧ q ≠ EmptyString.
Proof.
  unfold Search.lookupPrefix. destruct (decide (q = EmptyString)) as [|Hq].
  - by intros ?%elem_of_nil.
  - rewrite merge_sort_Permutation. intros [? ?]%list_elem_of_filter. done.
Qed.

Lemma lookupPrefix_sorted idx :
  StronglySorted (Search.rank_le prio q) (Search.lookupPrefix prio q idx).
Proof.
  unfold Search.lookupPrefix. destruct (decide (q = EmptyString)).
  - constructor.
  - apply (StronglySorted_merge_sort _).
Qed.

Lemma lookupPrefix_complete idx r :
  q ≠ EmptyString → r ∈ idx → Search.starts_with_ci q (Search.name r) = true →
  r ∈ Search.lookupPrefix prio q idx.
Proof.
  intros Hq Hin Hp. unfold Search.lookupPrefix.
  destruct (decide (q = EmptyString)); [done|].
  rewrite merge_sort_Permutation. by apply list_elem_of_filter.
Qed.
End ranking_facts.

(** On the index of the fragment the result of [lookupPrefix "Trigger"] does
    not depend on the order in which the entries are listed: the three
    entries that match differ in exact match or in length. *)
Lemma lookupPrefix_Trigger_any_order (prio : string → nat) idx :
  idx ≡ₚ automod_index →
  Search.lookupPrefix prio "Trigger" idx
  = Search.lookupPrefix prio "Trigger" automod_index.
Proof.
  intros Hp. unfold Search.lookupPrefix.
  destruct (decide ("Trigger" = EmptyString)) as [|_]; [done|].
  set (P := fun r => Search.starts_with_ci "Trigger" (Search.name r) = true).
  assert (filter P idx ≡ₚ filter P automod_index) as Hf by by rewrite Hp.
  apply (StronglySorted_unique_strong (Search.rank_le prio "Trigger")).
  - intros x1 x2. rewrite !merge_sort_Permutation, Hf.
    let l := eval vm_compute in (filter P automod_index) in
    change (filter P automod_index) with l.
    intros Hx1 Hx2. unfold Search.rank_le.
    repeat (apply elem_of_cons in Hx1 as [->|Hx1]);
      try (by apply elem_of_nil in Hx1);
      repeat (apply elem_of_cons in Hx2 as [->|Hx2]);
      try (by apply elem_of_nil in Hx2);
      try done; cbn; lia.
  - apply (StronglySorted_merge_sort _).
  - apply (StronglySorted_merge_sort _).
  - by rewrite !merge_sort_Permutation.
Qed.

(** ** Kinds and keys *)

(** However the declared kinds are spelled as keys, as long as two kinds do
    not share a key, some declared kind has no bucket in the fragment: it has
    two keys, and there are more than two kinds. *)
Lemma no_key_naming_fills_every_kind (key : Kind → string) :
  Inj (=) (=) key → ∃ k, bucket_of (key k) automod_payload = None.
Proof.
  intros Hinj.
  assert (∀ k b, bucket_of (key k) automod_payload = Some b →
                 key k = "enum" ∨ key k = "struct") as Hkey.
  { intros k b H%bucket_of_elem. unfold automod_payload in H.
    repeat (apply elem_of_cons in H as [H|H]; [simplify_eq; auto|]).
    by apply elem_of_nil in H. }
  destruct (bucket_of (key KTrait) automod_payload) eqn:H1; [|by eexists].
  destruct (bucket_of (key KFunction) automod_payload) eqn:H2; [|by eexists].
  destruct (bucket_of (key KMacro) automod_payload) eqn:H3; [|by eexists].
  apply Hkey in H1, H2, H3.
  assert (key KTrait = key KFunction ∨ key KTrait = key KMacro
          ∨ key KFunction = key KMacro) as [H|[H|H]]
    by (destruct H1 as [E1|E1], H2 as [E2|E2], H3 as [E3|E3];
        rewrite E1, E2, E3; auto);
    apply Hinj in H; discriminate H.
Qed.

(** ** Properties of the fragment *)

(** C1: in every kind bucket of the payload of the fragment (the [enum] and
    the [struct] bucket of [window.SIDEBAR_ITEMS]) the names are sorted by
    the case-insensitive lexical order, names equal up to case ordered by the
    case-sensitive lexical order. *)
Theorem bucket_names_sorted k b :
  bucket_of k automod_payload = Some b → StronglySorted name_le (names b).
Proof. revert k b. apply automod_buckets; compute_done. Qed.

Lemma bucket_names_sorted_witness :
  bucket_of "enum" automod_payload = Some enum_bucket
  ∧ StronglySorted name_le (names enum_bucket).
Proof.
  split; [reflexivity|].
  apply (bucket_names_sorted "enum" enum_bucket). reflexivity.
Defined.

(** C2: the fragment is an assignment to the one global
    [window.SIDEBAR_ITEMS]; the value assigned is an object whose properties
    are distinct kind strings, each holding an array whose elements are
    arrays of exactly two strings; it is the encoding of the payload it
    decodes to, and the text of the file is the print of that encoding. *)
Theorem fragment_wire_shape :
  Js.target sidebar_items_js = "window"
  ∧ Js.property sidebar_items_js = "SIDEBAR_ITEMS"
  ∧ is_wire_shape (Js.rhs sidebar_items_js)
  ∧ as_payload (Js.rhs sidebar_items_js) = Some automod_payload
  ∧ of_payload automod_payload = Js.rhs sidebar_items_js
  ∧ Js.print_statement
      (Js.Assign "window" "SIDEBAR_ITEMS" (of_payload automod_payload))
    = sidebar_items_text.
Proof.
  assert (of_payload automod_payload = SIDEBAR_ITEMS) as Hof
    by apply of_payload_as_payload, decode_fragment.
  split_and!; [reflexivity|reflexivity| |apply decode_fragment|exact Hof|].
  - apply is_wire_shape_iff. exists automod_payload.
    split; [apply decode_fragment|]. compute_done.
  - rewrite Hof. apply print_fragment.
Qed.

(** C3: over the index of the fragment, [lookupPrefix "Trigger"] returns
    [Trigger] (enum), then [TriggerType] (enum), then [TriggerMetadata]
    (struct), whatever priority the kinds are given. *)
Theorem lookupPrefix_Trigger (prio : string → nat) :
  (fun r => (Search.name r, Search.kind r))
    <$> Search.lookupPrefix prio "Trigger" automod_index
  = [("Trigger", "enum"); ("TriggerType", "enum"); ("TriggerMetadata", "struct")].
Proof. vm_compute. reflexivity. Qed.

Example lookupPrefix_Trigger_reversed :
  Search.name <$> Search.lookupPrefix Search.kind_priority "trigger"
                    (reverse automod_index)
  = ["Trigger"; "TriggerType"; "TriggerMetadata"].
Proof. vm_compute. reflexivity. Qed.

(** C4, as claimed, fails: the payload of the fragment has no bucket for the
    declared kind [trait]. *)
Lemma declared_kind_without_bucket :
  ¬ every_declared_kind_present automod_payload.
Proof.
  intros H. destruct (H KTrait) as [b Hb]; [compute_done|]. discriminate Hb.
Qed.

(** C4, amended: the payload of the fragment has exactly the buckets [enum]
    and [struct]; every bucket it has is non-empty, and a declared kind has
    a bucket exactly when it is one of these two. *)
Theorem buckets_of_inhabited_kinds :
  kinds automod_payload = [kind_key KEnum; kind_key KStruct]
  ∧ Forall (fun kb => kb.2 ≠ []) automod_payload
  ∧ ∀ k : Kind,
      is_Some (bucket_of (kind_key k) automod_payload) ↔ k = KEnum ∨ k = KStruct.
Proof.
  split_and!; [done|compute_done|].
  intros k. split.
  - intros [b Hb]. destruct k; auto; discriminate Hb.
  - intros [->| ->]; by eexists.
Qed.

(** C5: within one kind bucket of the payload no name occurs twice. *)
Theorem bucket_names_unique k b :
  bucket_of k automod_payload = Some b → NoDup (names b).
Proof. revert k b. apply automod_buckets; compute_done. Qed.

Lemma bucket_names_unique_witness :
  bucket_of "struct" automod_payload = Some struct_bucket
  ∧ NoDup (names struct_bucket).
Proof.
  split; [reflexivity|].
  apply (bucket_names_unique "struct" struct_bucket). reflexivity.
Defined.

(** C6: every summary of the fragment is one line: it holds no line feed and
    no carriage return, and so no paragraph break. *)
Theorem summaries_single_line :
  Forall (fun s => single_line s ∧ ¬ multi_paragraph s)
         (all_summaries automod_payload).
Proof.
  apply Forall_impl with (P := single_line).
  - compute_done.
  - intros s Hs. split; [done|]. by apply single_line_not_multi_paragraph.
Qed.

(** C7: [Action] comes before [Trigger] in the [enum] bucket and [Rule]
    before [TriggerMetadata] in the [struct] bucket; the two lists of the
    example are subsequences of the names of the buckets. *)
Theorem example_order_in_fragment :
  ∃ e s,
    bucket_of "enum" automod_payload = Some e
    ∧ bucket_of "struct" automod_payload = Some s
    ∧ precedes "Action" "Trigger" (names e)
    ∧ precedes "Rule" "TriggerMetadata" (names s)
    ∧ sublist ["Action"; "Trigger"] (names e)
    ∧ sublist ["Rule"; "TriggerMetadata"] (names s).
Proof.
  exists enum_bucket, struct_bucket. split_and!; try reflexivity.
  - exists 0%nat, 4%nat. split_and!; [lia|done..].
  - exists 1%nat, 2%nat. split_and!; [lia|done..].
  - simpl. apply sublist_skip. do 3 apply sublist_cons.
    apply sublist_skip. apply sublist_cons. constructor.
  - simpl. apply sublist_cons. do 2 apply sublist_skip. constructor.
Qed.

(** C8: the fragment has nine names, and over all its buckets together they
    are pairwise distinct even when compared without case. *)
Theorem names_distinct_across_buckets :
  List.length (all_names automod_payload) = 9%nat
  ∧ NoDup (to_lower <$> all_names automod_payload).
Proof. split; [reflexivity|compute_done]. Qed.

(** C9: every summary of the fragment is non-empty. *)
Theorem summaries_nonempty :
  List.length (all_summaries automod_payload) = 9%nat
  ∧ Forall (fun s => s ≠ EmptyString) (all_summaries automod_payload).
Proof. split; [reflexivity|compute_done]. Qed.

(** C10: the kind keys of the object of the fragment are [enum] then
    [struct], in ascending case-sensitive lexical order. *)
Theorem kind_keys_ascending :
  ∃ props,
    Js.rhs sidebar_items_js = Js.Obj props
    ∧ Js.keys props = ["enum"; "struct"]
    ∧ StronglySorted string_lt (Js.keys props).
Proof. eexists. split_and!; [reflexivity|reflexivity|compute_done]. Qed.

(** ** Further properties of the fragment *)

Lemma is_lower_to_lower_ascii c : is_lower c = true → to_lower_ascii c = c.
Proof.
  unfold is_lower, to_lower_ascii. intros H.
  apply andb_true_iff in H as [H1 _]. apply Nat.leb_le in H1.
  destruct (65 <=? nat_of_ascii c)%nat; [|done].
  destruct (Nat.leb_spec (nat_of_ascii c) 90); [lia|done].
Qed.

(** Lower-casing leaves a word of lower-case letters as it is. *)
Lemma to_lower_lower_word s : is_lower_word s = true → to_lower s = s.
Proof.
  intros H. assert (forallb is_lower (chars s) = true) as Hall.
  { unfold is_lower_word in H. by destruct (chars s). }
  clear H. induction s as [|c s IH]; [done|].
  unfold chars in *. simpl in *. apply andb_true_iff in Hall as [Hc Hs].
  by rewrite (is_lower_to_lower_ascii _ Hc), (IH Hs).
Qed.

(** Lower-casing changes an identifier: its first letter is a capital. *)
Lemma to_lower_identifier s : is_identifier s = true → to_lower s ≠ s.
Proof.
  destruct s as [|c s]; [done|]. unfold is_identifier, chars; simpl.
  intros [Hc _]%andb_true_iff Heq. injection Heq as Hc' _.
  unfold is_upper in Hc. unfold to_lower_ascii in Hc'. rewrite Hc in Hc'.
  apply andb_true_iff in Hc as [_ Hc]. apply Nat.leb_le in Hc.
  apply (f_equal nat_of_ascii) in Hc'. rewrite nat_ascii_embedding in Hc'; lia.
Qed.

(** A plain string is one line. *)
Lemma plain_single_line s : plain s → single_line s.
Proof.
  unfold plain, single_line. intros H.
  rewrite forallb_forall in H.
  split; intros Hin%list_elem_of_In; apply H in Hin; done.
Qed.

(** X1: each of the twenty string literals of the fragment (kind keys,
    names, summaries) is made of printable ASCII characters other than the
    double quote and the backslash, so none needs an escape. *)
Theorem strings_plain :
  List.length (strings SIDEBAR_ITEMS) = 20%nat
  ∧ Forall plain (strings SIDEBAR_ITEMS).
Proof.
  split; [reflexivity|]. unfold plain. compute_done.
Qed.

(** X2: every item name of the fragment is an identifier of ASCII letters
    that begins with a capital letter; lower-casing changes each of them. *)
Theorem names_identifiers :
  Forall (fun n => is_identifier n = true ∧ to_lower n ≠ n)
         (all_names automod_payload).
Proof.
  apply Forall_impl with (P := fun n => is_identifier n = true).
  - compute_done.
  - intros n Hn. split; [done|]. by apply to_lower_identifier.
Qed.

(** X3: every kind key of the object is a non-empty word of lower-case ASCII
    letters, which lower-casing leaves unchanged. *)
Theorem kind_keys_lower_case :
  ∃ props,
    SIDEBAR_ITEMS = Js.Obj props
    ∧ Forall (fun k => is_lower_word k = true ∧ to_lower k = k) (Js.keys props).
Proof.
  eexists. split; [reflexivity|].
  apply Forall_impl with (P := fun k => is_lower_word k = true).
  - compute_done.
  - intros k Hk. split; [done|]. by apply to_lower_lower_word.
Qed.


(** X5: in every bucket the names are also strictly ascending in the
    case-sensitive lexical order. *)
Theorem bucket_names_ascending_with_case k b :
  bucket_of k automod_payload = Some b → StronglySorted string_lt (names b).
Proof. revert k b. apply automod_buckets; compute_done. Qed.

Lemma bucket_names_ascending_with_case_witness :
  bucket_of "enum" automod_payload = Some enum_bucket
  ∧ StronglySorted string_lt (names enum_bucket).
Proof.
  split; [reflexivity|].
  apply (bucket_names_ascending_with_case "enum" enum_bucket). reflexivity.
Defined.

(** X6: the links of the summaries are [Action] and [Trigger], and each
    of them is the name of an item of the fragment. *)
Theorem summary_links_resolve :
  all_summaries automod_payload ≫= link_targets = ["Action"; "Trigger"]
  ∧ Forall (fun t => t ∈ all_names automod_payload)
           (all_summaries automod_payload ≫= link_targets).
Proof. split; [reflexivity|compute_done]. Qed.

(** X7: every summary of the fragment begins with a capital letter and ends
    with a full stop. *)
Theorem summaries_sentences :
  Forall (fun s => is_sentence s = true) (all_summaries automod_payload).
Proof. compute_done. Qed.
